(** * Recording paint engine (helpers/src/recordpaintengine.cpp)

    A shallow embedding of veusz's [RecordPaintEngine] and of the
    [PaintElement] subclasses it creates, followed by the properties of the
    recording / replay design that the specification states about them.

    Layout:
    - the Qt value types the code only copies, as an interface;
    - [QPainter] as the trace of the calls made on it;
    - the paint elements and their [paint] method;
    - the engine, in a state-and-failure monad over the heap of paint
      devices ([None] is undefined behaviour of the C++ program);
    - the theorems. *)

From Stdlib Require Import ZArith List Lia String.
From stdpp Require Import base option list gmap.
Import ListNotations.

Local Open Scope Z_scope.

(** ** Qt value types

    The engine never looks inside these: it copies them into an element and
    hands them back to the painter.  They are kept abstract; the only two
    Qt operations the code uses on them are the implicit [QRect] to [QRectF]
    conversion and [QTextItem::text()]. *)
Class QtTypes : Type := {
  QRectF : Type;
  QRect : Type;
  QLineF : Type;
  QLine : Type;
  QPointF : Type;
  QPoint : Type;
  QImage : Type;
  QPixmap : Type;
  QPainterPath : Type;
  QString : Type;
  QTextItem : Type;
  QBrush : Type;
  QRegion : Type;
  QFont : Type;
  QTransform : Type;
  QPen : Type;
  BGMode : Type;
  ClipOperation : Type;
  CompositionMode : Type;
  (* QRectF::QRectF(const QRect&) *)
  QRectF_of_QRect : QRect -> QRectF;
  (* QTextItem::text() *)
  text : QTextItem -> QString
}.

(** [Qt::ImageConversionFlags] and [QPainter::RenderHints] are [QFlags],
    that is an [int]. *)
Definition ImageConversionFlags := Z.
Definition RenderHints := Z.

(** [QPaintEngine::PolygonDrawMode] *)
Inductive PolygonDrawMode : Type :=
| OddEvenMode
| WindingMode
| ConvexMode
| PolylineMode.

(** [Qt::FillRule] *)
Inductive FillRule : Type :=
| OddEvenFill
| WindingFill.

(** [QPaintEngine::DirtyFlag], the values of Qt's qpaintengine.h. *)
Definition DirtyPen : Z := 0x0001.
Definition DirtyBrush : Z := 0x0002.
Definition DirtyBrushOrigin : Z := 0x0004.
Definition DirtyFont : Z := 0x0008.
Definition DirtyBackground : Z := 0x0010.
Definition DirtyBackgroundMode : Z := 0x0020.
Definition DirtyTransform : Z := 0x0040.
Definition DirtyClipRegion : Z := 0x0080.
Definition DirtyClipPath : Z := 0x0100.
Definition DirtyHints : Z := 0x0200.
Definition DirtyCompositionMode : Z := 0x0400.
Definition DirtyClipEnabled : Z := 0x0800.
Definition DirtyOpacity : Z := 0x1000.

(** [QPaintEngine::Type], the values of Qt's qpaintengine.h: the built-in
    engines, then the range left to user engines. *)
Definition X11 : Z := 0.
Definition Windows : Z := 1.
Definition QuickDraw : Z := 2.
Definition CoreGraphics : Z := 3.
Definition MacPrinter : Z := 4.
Definition QWindowSystem : Z := 5.
Definition PostScript : Z := 6.
Definition OpenGL : Z := 7.
Definition Picture : Z := 8.
Definition SVG : Z := 9.
Definition Raster : Z := 10.
Definition Direct3D : Z := 11.
Definition Pdf : Z := 12.
Definition OpenVG : Z := 13.
Definition OpenGL2 : Z := 14.
Definition PaintBuffer : Z := 15.
Definition Blitter : Z := 16.
Definition Direct2D : Z := 17.
Definition User : Z := 50.
Definition MaxUser : Z := 100.

Definition builtin_engine_types : list Z :=
  [X11; Windows; QuickDraw; CoreGraphics; MacPrinter; QWindowSystem;
   PostScript; OpenGL; Picture; SVG; Raster; Direct3D; Pdf; OpenVG;
   OpenGL2; PaintBuffer; Blitter; Direct2D].

Section Recording.
Context {Qt : QtTypes}.

(** ** The painter

    A [QPainter] is seen through the calls made on it: each method the
    elements use appends one entry to the trace. *)
Inductive PainterCall : Type :=
| Call_drawEllipse (r : QRectF)
| Call_drawImage (r : QRectF) (image : QImage) (sr : QRectF)
    (flags : ImageConversionFlags)
| Call_drawLines_QLine (lines : list QLine)
| Call_drawLines_QLineF (lines : list QLineF)
| Call_drawPath (path : QPainterPath)
| Call_drawPixmap (r : QRectF) (pm : QPixmap) (sr : QRectF)
| Call_drawPoints_QPolygon (pts : list QPoint)
| Call_drawPoints_QPolygonF (pts : list QPointF)
| Call_drawPolygon_QPolygon (pts : list QPoint) (rule : FillRule)
| Call_drawPolygon_QPolygonF (pts : list QPointF) (rule : FillRule)
| Call_drawConvexPolygon_QPolygon (pts : list QPoint)
| Call_drawConvexPolygon_QPolygonF (pts : list QPointF)
| Call_drawPolyline_QPolygon (pts : list QPoint)
| Call_drawPolyline_QPolygonF (pts : list QPointF)
| Call_drawRects_QRect (rects : list QRect)
| Call_drawRects_QRectF (rects : list QRectF)
| Call_drawText (pt : QPointF) (s : QString)
| Call_drawTiledPixmap (r : QRectF) (pm : QPixmap) (pt : QPointF)
| Call_setBackground (b : QBrush)
| Call_setBackgroundMode (m : BGMode)
| Call_setBrush (b : QBrush)
| Call_setBrushOrigin (o : QPointF)
| Call_setClipRegion (region : QRegion) (op : ClipOperation)
| Call_setClipPath (path : QPainterPath) (op : ClipOperation)
| Call_setCompositionMode (m : CompositionMode)
| Call_setFont (f : QFont)
| Call_setWorldTransform (t : QTransform)
| Call_setClipping (enabled : bool)
| Call_setPen (p : QPen)
| Call_setRenderHints (hints : RenderHints).

Definition QPainter : Type := list PainterCall.

(** [painter.m(args)]: the call is recorded at the end of the trace. *)
Definition invoke (painter : QPainter) (c : PainterCall) : QPainter :=
  painter ++ [c].

(** ** Paint elements

    One constructor per concrete subclass of [PaintElement] (the template
    classes once per instantiation), with the members as arguments.  The
    containers [QVector<T>], [QPolygon] and [QPolygonF] are lists, held by
    value. *)
Inductive PaintElement : Type :=
| EllipseElement (_ellipse : QRectF)
| ImageElement (_rect : QRectF) (_image : QImage) (_sr : QRectF)
    (_flags : ImageConversionFlags)
| LineElement (_lines : list QLine)
| LineFElement (_lines : list QLineF)
| PathElement (_path : QPainterPath)
| PixmapElement (_r : QRectF) (_pm : QPixmap) (_sr : QRectF)
| PointElement (_pts : list QPoint)
| PointFElement (_pts : list QPointF)
| PolygonElement (_mode : PolygonDrawMode) (_pts : list QPoint)
| PolygonFElement (_mode : PolygonDrawMode) (_pts : list QPointF)
| RectElement (_rects : list QRect)
| RectFElement (_rects : list QRectF)
| TextElement (_pt : QPointF) (_text : QString)
| TiledPixmapElement (_rect : QRectF) (_pixmap : QPixmap) (_pt : QPointF)
| BackgroundBrushElement (_brush : QBrush)
| BackgroundModeElement (_mode : BGMode)
| BrushElement (_brush : QBrush)
| BrushOriginElement (_origin : QPointF)
| ClipRegionElement (_op : ClipOperation) (_region : QRegion)
| ClipPathElement (_op : ClipOperation) (_region : QPainterPath)
| CompositionElement (_mode : CompositionMode)
| FontElement (_font : QFont)
| TransformElement (_t : QTransform)
| ClipEnabledElement (_enabled : bool)
| PenElement (_pen : QPen)
| HintsElement (_hints : RenderHints).

(** The virtual method [paint(QPainter&)], class by class. *)
Definition paint (self : PaintElement) (painter : QPainter) : QPainter :=
  match self with
  | EllipseElement _ellipse => invoke painter (Call_drawEllipse _ellipse)
  | ImageElement _rect _image _sr _flags =>
      invoke painter (Call_drawImage _rect _image _sr _flags)
  | LineElement _lines => invoke painter (Call_drawLines_QLine _lines)
  | LineFElement _lines => invoke painter (Call_drawLines_QLineF _lines)
  | PathElement _path => invoke painter (Call_drawPath _path)
  | PixmapElement _r _pm _sr => invoke painter (Call_drawPixmap _r _pm _sr)
  | PointElement _pts => invoke painter (Call_drawPoints_QPolygon _pts)
  | PointFElement _pts => invoke painter (Call_drawPoints_QPolygonF _pts)
  | PolygonElement _mode _pts =>
      match _mode with
      | OddEvenMode =>
          invoke painter (Call_drawPolygon_QPolygon _pts OddEvenFill)
      | WindingMode =>
          invoke painter (Call_drawPolygon_QPolygon _pts WindingFill)
      | ConvexMode => invoke painter (Call_drawConvexPolygon_QPolygon _pts)
      | PolylineMode => invoke painter (Call_drawPolyline_QPolygon _pts)
      end
  | PolygonFElement _mode _pts =>
      match _mode with
      | OddEvenMode =>
          invoke painter (Call_drawPolygon_QPolygonF _pts OddEvenFill)
      | WindingMode =>
          invoke painter (Call_drawPolygon_QPolygonF _pts WindingFill)
      | ConvexMode => invoke painter (Call_drawConvexPolygon_QPolygonF _pts)
      | PolylineMode => invoke painter (Call_drawPolyline_QPolygonF _pts)
      end
  | RectElement _rects => invoke painter (Call_drawRects_QRect _rects)
  | RectFElement _rects => invoke painter (Call_drawRects_QRectF _rects)
  | TextElement _pt _text => invoke painter (Call_drawText _pt _text)
  | TiledPixmapElement _rect _pixmap _pt =>
      invoke painter (Call_drawTiledPixmap _rect _pixmap _pt)
  | BackgroundBrushElement _brush => invoke painter (Call_setBackground _brush)
  | BackgroundModeElement _mode => invoke painter (Call_setBackgroundMode _mode)
  | BrushElement _brush => invoke painter (Call_setBrush _brush)
  | BrushOriginElement _origin => invoke painter (Call_setBrushOrigin _origin)
  | ClipRegionElement _op _region =>
      invoke painter (Call_setClipRegion _region _op)
  | ClipPathElement _op _region => invoke painter (Call_setClipPath _region _op)
  | CompositionElement _mode => invoke painter (Call_setCompositionMode _mode)
  | FontElement _font => invoke painter (Call_setFont _font)
  | TransformElement _t => invoke painter (Call_setWorldTransform _t)
  | ClipEnabledElement _enabled => invoke painter (Call_setClipping _enabled)
  | PenElement _pen => invoke painter (Call_setPen _pen)
  | HintsElement _hints => invoke painter (Call_setRenderHints _hints)
  end.

(** ** Constructors that do more than initialise members *)

(** Caller-owned arrays: [const T* p] is an address into the caller's memory
    of [T] cells, [p[i]] the cell at [p + i].  Reading a cell the caller
    does not own is undefined ([None]). *)
Definition copy_step {T : Type} (mem : gmap Z T) (p : Z)
    (acc : option (list T)) (i : Z) : option (list T) :=
  match acc with
  | Some v =>
      match mem !! (p + i) with
      | Some x => Some (v ++ [x])
      | None => None
      end
  | None => None
  end.

(** [for(int i = 0; i < count; i++) v << p[i];] starting from the empty
    container: the body runs for i = 0, 1, ..., count-1 in this order, and
    not at all when [count <= 0]. *)
Definition copy_elements {T : Type} (mem : gmap Z T) (p : Z) (count : Z)
    : option (list T) :=
  foldl (copy_step mem p) (Some []) (seqZ 0 count).

(** [lineElement<T>::lineElement(const T *lines, int linecount)] *)
Definition lineElement {T : Type} (mem : gmap Z T) (lines : Z)
    (linecount : Z) : option (list T) :=
  copy_elements mem lines linecount.

(** [pointElement<T,V>::pointElement(const T* points, int pointcount)] *)
Definition pointElement {T : Type} (mem : gmap Z T) (points : Z)
    (pointcount : Z) : option (list T) :=
  copy_elements mem points pointcount.

(** [polyElement<T,V>::polyElement(const T* points, int pointcount,
    QPaintEngine::PolygonDrawMode mode)]: the mode and the points. *)
Definition polyElement {T : Type} (mem : gmap Z T) (points : Z)
    (pointcount : Z) (mode : PolygonDrawMode)
    : option (PolygonDrawMode * list T) :=
  match copy_elements mem points pointcount with
  | Some _pts => Some (mode, _pts)
  | None => None
  end.

(** [rectElement<T>::rectElement(const T* rects, int rectcount)] *)
Definition rectElement {T : Type} (mem : gmap Z T) (rects : Z)
    (rectcount : Z) : option (list T) :=
  copy_elements mem rects rectcount.

(** [TextElement::TextElement(const QPointF& pt, const QTextItem& txt)
    : _pt(pt), _text(txt.text())] *)
Definition new_TextElement (pt : QPointF) (txt : QTextItem) : PaintElement :=
  TextElement pt (text txt).

(** ** Paint devices and the engine *)

(** What a [QPaintDevice*] may point to: the recording device with the
    elements it holds, or a paint device of some other class. *)
Inductive QPaintDevice : Type :=
| RecordPaintDevice (elements : list PaintElement)
| OtherPaintDevice.

(** Modelled from the spec: [RecordPaintDevice::addElement], declared in
    recordpaintdevice.h, which is not among the sources.  The spec's
    [addCommand] forwards to the log's append, which adds the command at the
    end of the sequence. *)
Definition addElement (elements : list PaintElement) (el : PaintElement)
    : list PaintElement :=
  elements ++ [el].

(** The engine object: its one member, a device pointer (0 is the null
    pointer). *)
Record RecordPaintEngine : Type := { _pdev : Z }.

(** The engine together with the heap of paint devices it points into. *)
Record World : Type := {
  engine : RecordPaintEngine;
  devices : gmap Z QPaintDevice
}.

(** Methods of the engine: they read and update the world, and have no
    result ([None]) where the C++ program has undefined behaviour. *)
Definition M (A : Type) : Type := World -> option (A * World).

#[global] Instance M_ret : MRet M := fun A a w => Some (a, w).

#[global] Instance M_bind : MBind M := fun A B k m w =>
  match m w with
  | Some (a, w') => k a w'
  | None => None
  end.

(** [if (c) m;] *)
Definition when (c : bool) (m : M unit) : M unit :=
  if c then m else mret tt.

(** The C++ truth value of [flags & bit]. *)
Definition flag (flags bit : Z) : bool := negb (Z.land flags bit =? 0).

(** [_pdev->addElement(el)]: defined only when [_pdev] points to a
    [RecordPaintDevice]. *)
Definition pdev_addElement (el : PaintElement) : M unit :=
  fun w =>
    match devices w !! _pdev (engine w) with
    | Some (RecordPaintDevice elements) =>
        Some (tt, {| engine := engine w;
                     devices := <[_pdev (engine w) :=
                                   RecordPaintDevice (addElement elements el)]>
                                  (devices w) |})
    | _ => None
    end.

(** [_pdev->addElement(new E(...))] where the constructor of [E] reads the
    caller's array. *)
Definition pdev_addElement_new (el : option PaintElement) : M unit :=
  match el with
  | Some e => pdev_addElement e
  | None => fun _ => None
  end.

(** [RecordPaintEngine::RecordPaintEngine() : ..., _pdev(0)] *)
Definition new_RecordPaintEngine : RecordPaintEngine := {| _pdev := 0 |}.

(** [bool begin(QPaintDevice* pdev)]: the C cast keeps the address whatever
    the device is, and the result is always 1. *)
Definition begin (pdev : Z) : M bool :=
  fun w => Some (true, {| engine := {| _pdev := pdev |};
                          devices := devices w |}).

Definition drawEllipse_QRectF (rect : QRectF) : M unit :=
  pdev_addElement (EllipseElement rect).

Definition drawEllipse_QRect (rect : QRect) : M unit :=
  pdev_addElement (EllipseElement (QRectF_of_QRect rect)).

Definition drawImage (rectangle : QRectF) (image : QImage) (sr : QRectF)
    (flags : ImageConversionFlags) : M unit :=
  pdev_addElement (ImageElement rectangle image sr flags).

Definition drawLines_QLineF (mem : gmap Z QLineF) (lines : Z) (lineCount : Z)
    : M unit :=
  pdev_addElement_new (LineFElement <$> lineElement mem lines lineCount).

Definition drawLines_QLine (mem : gmap Z QLine) (lines : Z) (lineCount : Z)
    : M unit :=
  pdev_addElement_new (LineElement <$> lineElement mem lines lineCount).

Definition drawPath (path : QPainterPath) : M unit :=
  pdev_addElement (PathElement path).

Definition drawPixmap (r : QRectF) (pm : QPixmap) (sr : QRectF) : M unit :=
  pdev_addElement (PixmapElement r pm sr).

Definition drawPoints_QPointF (mem : gmap Z QPointF) (points : Z)
    (pointCount : Z) : M unit :=
  pdev_addElement_new (PointFElement <$> pointElement mem points pointCount).

Definition drawPoints_QPoint (mem : gmap Z QPoint) (points : Z)
    (pointCount : Z) : M unit :=
  pdev_addElement_new (PointElement <$> pointElement mem points pointCount).

Definition drawPolygon_QPointF (mem : gmap Z QPointF) (points : Z)
    (pointCount : Z) (mode : PolygonDrawMode) : M unit :=
  pdev_addElement_new
    ((fun mp => PolygonFElement (fst mp) (snd mp))
       <$> polyElement mem points pointCount mode).

Definition drawPolygon_QPoint (mem : gmap Z QPoint) (points : Z)
    (pointCount : Z) (mode : PolygonDrawMode) : M unit :=
  pdev_addElement_new
    ((fun mp => PolygonElement (fst mp) (snd mp))
       <$> polyElement mem points pointCount mode).

Definition drawRects_QRectF (mem : gmap Z QRectF) (rects : Z) (rectCount : Z)
    : M unit :=
  pdev_addElement_new (RectFElement <$> rectElement mem rects rectCount).

Definition drawRects_QRect (mem : gmap Z QRect) (rects : Z) (rectCount : Z)
    : M unit :=
  pdev_addElement_new (RectElement <$> rectElement mem rects rectCount).

Definition drawTextItem (p : QPointF) (textItem : QTextItem) : M unit :=
  pdev_addElement (new_TextElement p textItem).

Definition drawTiledPixmap (rect : QRectF) (pixmap : QPixmap) (p : QPointF)
    : M unit :=
  pdev_addElement (TiledPixmapElement rect pixmap p).

(** [bool end()]: nothing but [return 1]. *)
Definition end_ : M bool := mret true.

(** [QPaintEngine::Type type() const] *)
Definition type (self : RecordPaintEngine) : Z := User + 34.

(** [QPaintEngineState], through the accessors [updateState] calls. *)
Record QPaintEngineState : Type := {
  state : Z;
  backgroundBrush : QBrush;
  backgroundMode : BGMode;
  brush : QBrush;
  brushOrigin : QPointF;
  clipOperation : ClipOperation;
  clipRegion : QRegion;
  clipPath : QPainterPath;
  compositionMode : CompositionMode;
  font : QFont;
  transform : QTransform;
  isClipEnabled : bool;
  pen : QPen;
  renderHints : RenderHints
}.

(** [void updateState(const QPaintEngineState& state)] *)
Definition updateState (st : QPaintEngineState) : M unit :=
  let flags := state st in
  when (flag flags DirtyBackground)
    (pdev_addElement (BackgroundBrushElement (backgroundBrush st))) ;;
  when (flag flags DirtyBackgroundMode)
    (pdev_addElement (BackgroundModeElement (backgroundMode st))) ;;
  when (flag flags DirtyBrush)
    (pdev_addElement (BrushElement (brush st))) ;;
  when (flag flags DirtyBrushOrigin)
    (pdev_addElement (BrushOriginElement (brushOrigin st))) ;;
  when (flag flags DirtyClipRegion)
    (pdev_addElement (ClipRegionElement (clipOperation st) (clipRegion st))) ;;
  when (flag flags DirtyClipPath)
    (pdev_addElement (ClipPathElement (clipOperation st) (clipPath st))) ;;
  when (flag flags DirtyCompositionMode)
    (pdev_addElement (CompositionElement (compositionMode st))) ;;
  when (flag flags DirtyFont)
    (pdev_addElement (FontElement (font st))) ;;
  when (flag flags DirtyTransform)
    (pdev_addElement (TransformElement (transform st))) ;;
  when (flag flags DirtyClipEnabled)
    (pdev_addElement (ClipEnabledElement (isClipEnabled st))) ;;
  when (flag flags DirtyPen)
    (pdev_addElement (PenElement (pen st))) ;;
  when (flag flags DirtyHints)
    (pdev_addElement (HintsElement (renderHints st))).

(** ** The specification's view of a state-change notification

    The enumeration of the specification, in its order: background fill
    style, background-fill toggle, foreground fill style, fill-pattern
    origin, clip region, clip path, compositing mode, font, transform,
    clip-enabled toggle, stroke style, render hints; each dirty flag with the
    command that carries the current value of its attribute. *)
Definition enumerated_order
    : list (Z * (QPaintEngineState -> PaintElement)) :=
  [ (DirtyBackground, fun st => BackgroundBrushElement (backgroundBrush st));
    (DirtyBackgroundMode, fun st => BackgroundModeElement (backgroundMode st));
    (DirtyBrush, fun st => BrushElement (brush st));
    (DirtyBrushOrigin, fun st => BrushOriginElement (brushOrigin st));
    (DirtyClipRegion,
      fun st => ClipRegionElement (clipOperation st) (clipRegion st));
    (DirtyClipPath,
      fun st => ClipPathElement (clipOperation st) (clipPath st));
    (DirtyCompositionMode,
      fun st => CompositionElement (compositionMode st));
    (DirtyFont, fun st => FontElement (font st));
    (DirtyTransform, fun st => TransformElement (transform st));
    (DirtyClipEnabled, fun st => ClipEnabledElement (isClipEnabled st));
    (DirtyPen, fun st => PenElement (pen st));
    (DirtyHints, fun st => HintsElement (renderHints st)) ].

(** The entries of the enumeration whose flag is set in the notification. *)
Definition dirty_entries (st : QPaintEngineState)
    : list (Z * (QPaintEngineState -> PaintElement)) :=
  List.filter (fun entry => flag (state st) (fst entry)) enumerated_order.

(** One command per set flag, in the order of the enumeration. *)
Definition dirty_commands (st : QPaintEngineState) : list PaintElement :=
  List.map (fun entry => snd entry st) (dirty_entries st).

(** The clip commands among recorded elements. *)
Definition is_clip_command (el : PaintElement) : bool :=
  match el with
  | ClipRegionElement _ _ | ClipPathElement _ _ => true
  | _ => false
  end.

(** The combine operation a clip command carries. *)
Definition clip_operation_of (el : PaintElement) : option ClipOperation :=
  match el with
  | ClipRegionElement _op _ | ClipPathElement _op _ => Some _op
  | _ => None
  end.

(** ** Worlds in which the engine is recording *)

(** The engine's device pointer leads to a recording device holding [log]. *)
Definition recording (w : World) (log : list PaintElement) : Prop :=
  devices w !! _pdev (engine w) = Some (RecordPaintDevice log).

(** The world [w] with the element list of the engine's device replaced. *)
Definition with_log (w : World) (log : list PaintElement) : World :=
  {| engine := engine w;
     devices := <[_pdev (engine w) := RecordPaintDevice log]> (devices w) |}.

(** The caller's array at [p] holds exactly the cells [elems]. *)
Definition holds {T : Type} (mem : gmap Z T) (p : Z) (elems : list T) : Prop :=
  forall (i : nat) (x : T),
    elems !! i = Some x -> mem !! (p + Z.of_nat i) = Some x.

(** The painter call a polygon element is replayed with. *)
Definition polygon_call (mode : PolygonDrawMode) (pts : list QPoint)
    : PainterCall :=
  match mode with
  | OddEvenMode => Call_drawPolygon_QPolygon pts OddEvenFill
  | WindingMode => Call_drawPolygon_QPolygon pts WindingFill
  | ConvexMode => Call_drawConvexPolygon_QPolygon pts
  | PolylineMode => Call_drawPolyline_QPolygon pts
  end.

Definition polygonF_call (mode : PolygonDrawMode) (pts : list QPointF)
    : PainterCall :=
  match mode with
  | OddEvenMode => Call_drawPolygon_QPolygonF pts OddEvenFill
  | WindingMode => Call_drawPolygon_QPolygonF pts WindingFill
  | ConvexMode => Call_drawConvexPolygon_QPolygonF pts
  | PolylineMode => Call_drawPolyline_QPolygonF pts
  end.

End Recording.

(** ** A concrete interpretation, to run the model on examples

    Coordinates are whole numbers, strings are strings, and the remaining
    Qt values are small codes.  A text item is its text together with the
    name of the font it was shaped with. *)
Definition SampleQt : QtTypes := {|
  QRectF := Z * Z * Z * Z;
  QRect := Z * Z * Z * Z;
  QLineF := (Z * Z) * (Z * Z);
  QLine := (Z * Z) * (Z * Z);
  QPointF := Z * Z;
  QPoint := Z * Z;
  QImage := nat;
  QPixmap := nat;
  QPainterPath := list (Z * Z);
  QString := string;
  QTextItem := string * string;
  QBrush := nat;
  QRegion := list (Z * Z * Z * Z);
  QFont := string;
  QTransform := Z * Z * Z * Z * Z * Z;
  QPen := nat;
  BGMode := bool;
  ClipOperation := nat;
  CompositionMode := nat;
  QRectF_of_QRect := fun r => r;
  text := fst
|}.

(** An engine bound to the recording device at address 1, which holds
    nothing yet; address 2 is a paint device of another class. *)
Definition sample_world : World (Qt := SampleQt) :=
  @Build_World SampleQt {| _pdev := 1 |}
    (<[1 := RecordPaintDevice []]> (<[2 := OtherPaintDevice]> ∅)).

(** A notification with the flags transform and font (0x48) set; the
    current values are, in the order of the accessors: background brush 0,
    transparent background, brush 1, brush origin (0,0), clip operation 2,
    a one-rectangle clip region, a clip path, composition mode 0, the font
    Helvetica, the identity transform, clipping enabled, pen 3, hints 1. *)
Definition sample_state : QPaintEngineState (Qt := SampleQt) :=
  @Build_QPaintEngineState SampleQt
    (Z.lor DirtyTransform DirtyFont)
    0%nat false 1%nat (0, 0)
    2%nat [(0, 0, 10, 10)] [(0, 0); (5, 5)]
    0%nat "Helvetica"%string (1, 0, 0, 1, 0, 0) true 3%nat 1.

(** A notification with both clip flags (0x180) set, and the same current
    values. *)
Definition sample_clip_state : QPaintEngineState (Qt := SampleQt) :=
  @Build_QPaintEngineState SampleQt
    (Z.lor DirtyClipRegion DirtyClipPath)
    0%nat false 1%nat (0, 0)
    2%nat [(0, 0, 10, 10)] [(0, 0); (5, 5)]
    0%nat "Helvetica"%string (1, 0, 0, 1, 0, 0) true 3%nat 1.

(** The caller's line array [(0,0)-(1,1), (2,2)-(3,3)] at address 100. *)
Definition sample_lines : list (@QLine SampleQt) :=
  [((0, 0), (1, 1)); ((2, 2), (3, 3))].

Definition sample_memory : gmap Z (@QLine SampleQt) :=
  <[100 := ((0, 0), (1, 1))]> (<[101 := ((2, 2), (3, 3))]> ∅).

(** The same array after the caller has overwritten its first cell. *)
Definition overwritten_lines : list (@QLine SampleQt) :=
  [((9, 9), (9, 9)); ((2, 2), (3, 3))].

Definition overwritten_memory : gmap Z (@QLine SampleQt) :=
  <[100 := ((9, 9), (9, 9))]> sample_memory.

(** ** The host's side: notifications and replay

    The host painter calls the engine's methods one after the other; later
    the recorded elements are painted one after the other on a painter. *)
Section Dispatch.
Context {Qt : QtTypes}.

(** One call of a method of the engine, with its arguments (for the batch
    methods: the caller's memory, the array pointer and the count). *)
Inductive Notification : Type :=
| Notify_drawEllipse_QRectF (rect : QRectF)
| Notify_drawEllipse_QRect (rect : QRect)
| Notify_drawImage (rectangle : QRectF) (image : QImage) (sr : QRectF)
    (flags : ImageConversionFlags)
| Notify_drawLines_QLineF (mem : gmap Z QLineF) (lines lineCount : Z)
| Notify_drawLines_QLine (mem : gmap Z QLine) (lines lineCount : Z)
| Notify_drawPath (path : QPainterPath)
| Notify_drawPixmap (r : QRectF) (pm : QPixmap) (sr : QRectF)
| Notify_drawPoints_QPointF (mem : gmap Z QPointF) (points pointCount : Z)
| Notify_drawPoints_QPoint (mem : gmap Z QPoint) (points pointCount : Z)
| Notify_drawPolygon_QPointF (mem : gmap Z QPointF) (points pointCount : Z)
    (mode : PolygonDrawMode)
| Notify_drawPolygon_QPoint (mem : gmap Z QPoint) (points pointCount : Z)
    (mode : PolygonDrawMode)
| Notify_drawRects_QRectF (mem : gmap Z QRectF) (rects rectCount : Z)
| Notify_drawRects_QRect (mem : gmap Z QRect) (rects rectCount : Z)
| Notify_drawTextItem (p : QPointF) (textItem : QTextItem)
| Notify_drawTiledPixmap (rect : QRectF) (pixmap : QPixmap) (p : QPointF)
| Notify_updateState (st : QPaintEngineState).

(** The method call a notification stands for. *)
Definition notify (n : Notification) : M unit :=
  match n with
  | Notify_drawEllipse_QRectF rect => drawEllipse_QRectF rect
  | Notify_drawEllipse_QRect rect => drawEllipse_QRect rect
  | Notify_drawImage rectangle image sr flags =>
      drawImage rectangle image sr flags
  | Notify_drawLines_QLineF mem lines lineCount =>
      drawLines_QLineF mem lines lineCount
  | Notify_drawLines_QLine mem lines lineCount =>
      drawLines_QLine mem lines lineCount
  | Notify_drawPath path => drawPath path
  | Notify_drawPixmap r pm sr => drawPixmap r pm sr
  | Notify_drawPoints_QPointF mem points pointCount =>
      drawPoints_QPointF mem points pointCount
  | Notify_drawPoints_QPoint mem points pointCount =>
      drawPoints_QPoint mem points pointCount
  | Notify_drawPolygon_QPointF mem points pointCount mode =>
      drawPolygon_QPointF mem points pointCount mode
  | Notify_drawPolygon_QPoint mem points pointCount mode =>
      drawPolygon_QPoint mem points pointCount mode
  | Notify_drawRects_QRectF mem rects rectCount =>
      drawRects_QRectF mem rects rectCount
  | Notify_drawRects_QRect mem rects rectCount =>
      drawRects_QRect mem rects rectCount
  | Notify_drawTextItem p textItem => drawTextItem p textItem
  | Notify_drawTiledPixmap rect pixmap p => drawTiledPixmap rect pixmap p
  | Notify_updateState st => updateState st
  end.

(** The calls of a list of notifications, in order. *)
Fixpoint notify_all (ns : list Notification) : M unit :=
  match ns with
  | [] => mret tt
  | n :: rest => notify n ;; notify_all rest
  end.

(** [paint] of each element of a list in turn, on the same painter. *)
Definition paint_all (els : list PaintElement) (painter : QPainter)
    : QPainter :=
  foldl (fun p el => paint el p) painter els.

(** The union of the dirty flags [updateState] tests. *)
Definition recorded_flags : Z :=
  foldr Z.lor 0 (List.map fst enumerated_order).

(** The notification [st] with other dirty flags, the current values kept. *)
Definition with_flags (st : QPaintEngineState) (flags : Z)
    : QPaintEngineState :=
  {| state := flags;
     backgroundBrush := backgroundBrush st;
     backgroundMode := backgroundMode st;
     brush := brush st;
     brushOrigin := brushOrigin st;
     clipOperation := clipOperation st;
     clipRegion := clipRegion st;
     clipPath := clipPath st;
     compositionMode := compositionMode st;
     font := font st;
     transform := transform st;
     isClipEnabled := isClipEnabled st;
     pen := pen st;
     renderHints := renderHints st |}.

(** The elements of the second group of the source, "state paint
    elements": those that change the state of the painter. *)
Definition is_state_element (el : PaintElement) : bool :=
  match el with
  | BackgroundBrushElement _ | BackgroundModeElement _ | BrushElement _
  | BrushOriginElement _ | ClipRegionElement _ _ | ClipPathElement _ _
  | CompositionElement _ | FontElement _ | TransformElement _
  | ClipEnabledElement _ | PenElement _ | HintsElement _ => true
  | _ => false
  end.

(** The engine's device pointer leads to a recording device. *)
Definition bound (w : World) : Prop :=
  exists log : list PaintElement, recording w log.

(** The caller owns the [count] cells of the array at [p]. *)
Definition readable {T : Type} (mem : gmap Z T) (p : Z) (count : Z) : Prop :=
  forall i : Z, 0 <= i < count -> is_Some (mem !! (p + i)).

End Dispatch.

(** A world whose engine has not begun: a fresh engine and the devices of
    the sample world. *)
Definition idle_world : World (Qt := SampleQt) :=
  @Build_World SampleQt new_RecordPaintEngine (devices sample_world).

(** A notification with the opacity flag alone, and the current values of
    the sample notification. *)
Definition opacity_state : QPaintEngineState (Qt := SampleQt) :=
  with_flags sample_state DirtyOpacity.


(** A short session: the sample state change, then the sample lines. *)
Definition sample_session : list (Notification (Qt := SampleQt)) :=
  [Notify_updateState sample_state;
   Notify_drawLines_QLine sample_memory 100 2].

(** What the sample session records. *)
Definition sample_session_elements : list (PaintElement (Qt := SampleQt)) :=
  [FontElement (font sample_state);
   TransformElement (transform sample_state);
   LineElement sample_lines].

(** A path, a rectangle, an image and a pixmap to draw. *)
Definition sample_path : @QPainterPath SampleQt := [(0, 0); (4, 4); (8, 0)].
Definition sample_rect : @QRectF SampleQt := (0, 0, 4, 2).
Definition sample_image : @QImage SampleQt := 7%nat.
Definition sample_pixmap : @QPixmap SampleQt := 9%nat.

Section Properties.
Context {Qt : QtTypes}.

(** ** Basic facts about worlds and the monad *)

Lemma with_log_recording (w : World) (log : list PaintElement) :
  recording (with_log w log) log.
Proof. unfold recording, with_log; simpl. apply lookup_insert_eq. Qed.

Lemma with_log_with_log (w : World) (l1 l2 : list PaintElement) :
  with_log (with_log w l1) l2 = with_log w l2.
Proof. unfold with_log; simpl. f_equal. apply insert_insert_eq. Qed.

Lemma with_log_same (w : World) (log : list PaintElement) :
  recording w log -> with_log w log = w.
Proof.
  unfold recording, with_log. destruct w as [e d]; simpl.
  intros Hd. f_equal. by apply insert_id.
Qed.

Lemma pdev_addElement_recording (el : PaintElement) (w : World)
    (log : list PaintElement) :
  recording w log ->
  pdev_addElement el w = Some (tt, with_log w (log ++ [el])).
Proof. unfold recording, pdev_addElement. intros ->. reflexivity. Qed.

Lemma when_addElement (c : bool) (el : PaintElement) (w : World)
    (log : list PaintElement) :
  recording w log ->
  when c (pdev_addElement el) w
  = Some (tt, with_log w (log ++ if c then [el] else [])).
Proof.
  intros Hw. destruct c; simpl.
  - by apply pdev_addElement_recording.
  - rewrite app_nil_r, with_log_same by done. reflexivity.
Qed.

Lemma when_addElement_then (c : bool) (el : PaintElement) (k : M unit)
    (w : World) (log : list PaintElement) :
  recording w log ->
  (when c (pdev_addElement el) ;; k) w
  = k (with_log w (log ++ if c then [el] else [])).
Proof.
  intros Hw. unfold mbind, M_bind.
  by rewrite (when_addElement c el w log Hw).
Qed.

Lemma dirty_commands_cons (f : Z) (mk : QPaintEngineState -> PaintElement)
    (rest : list (Z * (QPaintEngineState -> PaintElement)))
    (st : QPaintEngineState) :
  List.map (fun entry => snd entry st)
    (List.filter (fun entry => flag (state st) (fst entry)) ((f, mk) :: rest))
  = (if flag (state st) f then [mk st] else [])
    ++ List.map (fun entry => snd entry st)
         (List.filter (fun entry => flag (state st) (fst entry)) rest).
Proof. simpl. by destruct (flag (state st) f). Qed.

(** What [updateState] does in a recording world. *)
Lemma updateState_recording (st : QPaintEngineState) (w : World)
    (log : list PaintElement) :
  recording w log ->
  updateState st w = Some (tt, with_log w (log ++ dirty_commands st)).
Proof.
  intros Hw. unfold updateState, dirty_commands, dirty_entries,
    enumerated_order.
  rewrite !dirty_commands_cons. simpl List.map. rewrite app_nil_r.
  rewrite (when_addElement_then _ _ _ w log Hw).
  do 10 (rewrite (when_addElement_then _ _ _ _ _ (with_log_recording _ _)),
           with_log_with_log).
  rewrite (when_addElement _ _ _ _ (with_log_recording _ _)),
    with_log_with_log.
  by rewrite <- !app_assoc.
Qed.

(** The copying loop reads the cells of the caller's array in order. *)
Lemma copy_elements_holds {T : Type} (mem : gmap Z T) (p : Z)
    (elems : list T) :
  holds mem p elems ->
  copy_elements mem p (Z.of_nat (length elems)) = Some elems.
Proof.
  unfold copy_elements.
  induction elems as [|x elems IH] using rev_ind; intros Hmem.
  - reflexivity.
  - rewrite length_app, Nat2Z.inj_add; simpl length.
    rewrite seqZ_app by lia. rewrite foldl_app, IH.
    + change (seqZ (0 + Z.of_nat (length elems)) (Z.of_nat 1))
        with [0 + Z.of_nat (length elems)].
      simpl. rewrite Z.add_0_l, (Hmem (length elems) x); [done|].
      rewrite lookup_app_r by lia. by rewrite Nat.sub_diag.
    + intros i y Hy. apply Hmem. by apply lookup_app_l_Some.
Qed.

(** With a count of zero the loop body never runs, whatever the pointer. *)
Lemma copy_elements_zero {T : Type} (mem : gmap Z T) (p : Z) :
  copy_elements mem p 0 = Some [].
Proof. reflexivity. Qed.

Lemma addElement_new_batch {T : Type} (mk : list T -> PaintElement)
    (mem : gmap Z T) (p : Z) (elems : list T) (w : World)
    (log : list PaintElement) :
  recording w log ->
  holds mem p elems ->
  pdev_addElement_new (mk <$> copy_elements mem p (Z.of_nat (length elems))) w
  = Some (tt, with_log w (log ++ [mk elems])).
Proof.
  intros Hw Hmem. rewrite (copy_elements_holds mem p elems Hmem). simpl.
  by apply pdev_addElement_recording.
Qed.

Lemma filter_when (f : PaintElement -> bool) (c : bool) (el : PaintElement) :
  List.filter f (if c then [el] else []) = if c && f el then [el] else [].
Proof. destruct c; simpl; [|done]. by destruct (f el). Qed.

(** ** State-change notifications *)

(** C1: a state-change notification received while recording appends, after
    what the device already holds, exactly the commands of the set dirty
    flags: one per set flag of the enumeration, each carrying the current
    value of its attribute, in the enumerated order, and nothing for a flag
    that is not set.  With the flags transform and font set, two commands
    are appended, the font command before the transform command. *)
Theorem updateState_one_command_per_dirty_flag (st : QPaintEngineState)
    (w : World) (log : list PaintElement) :
  recording w log ->
  updateState st w = Some (tt, with_log w (log ++ dirty_commands st))
  /\ length (dirty_commands st)
     = length (List.filter (flag (state st)) (List.map fst enumerated_order))
  /\ (state st = Z.lor DirtyTransform DirtyFont ->
      dirty_commands st
      = [FontElement (font st); TransformElement (transform st)]).
Proof.
  intros Hw. split; [by apply updateState_recording|]. split.
  - unfold dirty_commands, dirty_entries, enumerated_order.
    rewrite length_map. simpl.
    repeat match goal with
           | |- context [flag (state st) ?f] => destruct (flag (state st) f)
           end; reflexivity.
  - intros Hflags. unfold dirty_commands, dirty_entries. rewrite Hflags.
    reflexivity.
Qed.

(** C9: when both the clip-region and the clip-path flags of a notification
    are set, the clip commands it appends are the clip-region command and
    the clip-path command, and both carry the one current clip operation of
    the notification. *)
Theorem clip_commands_share_operation (st : QPaintEngineState) (w : World)
    (log : list PaintElement) :
  recording w log ->
  flag (state st) DirtyClipRegion = true ->
  flag (state st) DirtyClipPath = true ->
  updateState st w = Some (tt, with_log w (log ++ dirty_commands st))
  /\ List.filter is_clip_command (dirty_commands st)
     = [ClipRegionElement (clipOperation st) (clipRegion st);
        ClipPathElement (clipOperation st) (clipPath st)]
  /\ (forall el : PaintElement,
        In el (dirty_commands st) -> is_clip_command el = true ->
        clip_operation_of el = Some (clipOperation st)).
Proof.
  intros Hw Hregion Hpath. split; [by apply updateState_recording|].
  assert (Hclip : List.filter is_clip_command (dirty_commands st)
                  = [ClipRegionElement (clipOperation st) (clipRegion st);
                     ClipPathElement (clipOperation st) (clipPath st)]).
  { unfold dirty_commands, dirty_entries, enumerated_order.
    rewrite !dirty_commands_cons. simpl List.map.
    rewrite !List.filter_app, !filter_when. simpl is_clip_command.
    rewrite !andb_false_r, !andb_true_r, Hregion, Hpath. reflexivity. }
  split; [exact Hclip|].
  intros el Hin Hel.
  assert (Hin' : In el (List.filter is_clip_command (dirty_commands st)))
    by (apply List.filter_In; by split).
  rewrite Hclip in Hin'. simpl in Hin'.
  destruct Hin' as [<-|[<-|[]]]; reflexivity.
Qed.

(** ** Session begin and end *)

(** C2: [begin] succeeds for whatever device pointer it is given, the null
    pointer and pointers to devices of another class included: it stores the
    pointer and returns true.  In the sample world the device at address 2
    is not a recording device, [begin] on it returns true, and the first
    drawing notification after it has no defined result. *)
Theorem begin_accepts_any_device :
  (forall (pdev : Z) (w : World),
     begin pdev w
     = Some (true, {| engine := {| _pdev := pdev |}; devices := devices w |}))
  /\ devices sample_world !! 2 = Some OtherPaintDevice
  /\ (exists w', begin 2 sample_world = Some (true, w')
                 /\ _pdev (engine w') = 2
                 /\ drawEllipse_QRectF (Qt := SampleQt) (0, 0, 1, 1) w' = None).
Proof.
  split; [reflexivity|]. split; [reflexivity|].
  eexists. split; [reflexivity|]. split; reflexivity.
Qed.

(** C5 as amended: [end] returns success and changes nothing: the engine
    keeps its device pointer and every device keeps its elements. *)
Theorem end_returns_success_and_changes_nothing (w : World) :
  end_ w = Some (true, w).
Proof. reflexivity. Qed.

(** C6: the type of the engine is the same number for every engine, 34 above
    the base of the user range; it lies in the user range and is none of the
    identifiers of the built-in engines. *)
Theorem type_is_a_user_type (self : RecordPaintEngine) :
  type self = User + 34
  /\ User <= type self <= MaxUser
  /\ ~ In (type self) builtin_engine_types
  /\ (forall other : RecordPaintEngine, type other = type self).
Proof.
  unfold type, User, MaxUser. repeat split; try lia.
  unfold builtin_engine_types. simpl. intros H.
  repeat destruct H as [H|H]; try discriminate H. exact H.
Qed.

(** ** Drawing notifications *)

(** C3: a batch notification (lines, points, rectangles, polygon; integer or
    real coordinates) whose array holds the [n] cells [elems] appends one
    command that contains the list [elems] itself, read from the caller's
    memory during the call.  The world after the call and [paint] do not
    refer to the caller's memory any more, so whatever happens to the array
    later, replaying the command issues the batch call with exactly
    [elems]. *)
Theorem batch_commands_snapshot_elements (w : World)
    (log : list PaintElement) :
  recording w log ->
  (forall (mem : gmap Z QLineF) (lines : Z) (elems : list QLineF),
     holds mem lines elems ->
     drawLines_QLineF mem lines (Z.of_nat (length elems)) w
     = Some (tt, with_log w (log ++ [LineFElement elems]))
     /\ forall painter : QPainter,
          paint (LineFElement elems) painter
          = painter ++ [Call_drawLines_QLineF elems])
  /\ (forall (mem : gmap Z QLine) (lines : Z) (elems : list QLine),
     holds mem lines elems ->
     drawLines_QLine mem lines (Z.of_nat (length elems)) w
     = Some (tt, with_log w (log ++ [LineElement elems]))
     /\ forall painter : QPainter,
          paint (LineElement elems) painter
          = painter ++ [Call_drawLines_QLine elems])
  /\ (forall (mem : gmap Z QPointF) (points : Z) (elems : list QPointF),
     holds mem points elems ->
     drawPoints_QPointF mem points (Z.of_nat (length elems)) w
     = Some (tt, with_log w (log ++ [PointFElement elems]))
     /\ forall painter : QPainter,
          paint (PointFElement elems) painter
          = painter ++ [Call_drawPoints_QPolygonF elems])
  /\ (forall (mem : gmap Z QPoint) (points : Z) (elems : list QPoint),
     holds mem points elems ->
     drawPoints_QPoint mem points (Z.of_nat (length elems)) w
     = Some (tt, with_log w (log ++ [PointElement elems]))
     /\ forall painter : QPainter,
          paint (PointElement elems) painter
          = painter ++ [Call_drawPoints_QPolygon elems])
  /\ (forall (mem : gmap Z QPointF) (points : Z) (elems : list QPointF)
        (mode : PolygonDrawMode),
     holds mem points elems ->
     drawPolygon_QPointF mem points (Z.of_nat (length elems)) mode w
     = Some (tt, with_log w (log ++ [PolygonFElement mode elems]))
     /\ forall painter : QPainter,
          paint (PolygonFElement mode elems) painter
          = painter ++ [polygonF_call mode elems])
  /\ (forall (mem : gmap Z QPoint) (points : Z) (elems : list QPoint)
        (mode : PolygonDrawMode),
     holds mem points elems ->
     drawPolygon_QPoint mem points (Z.of_nat (length elems)) mode w
     = Some (tt, with_log w (log ++ [PolygonElement mode elems]))
     /\ forall painter : QPainter,
          paint (PolygonElement mode elems) painter
          = painter ++ [polygon_call mode elems])
  /\ (forall (mem : gmap Z QRectF) (rects : Z) (elems : list QRectF),
     holds mem rects elems ->
     drawRects_QRectF mem rects (Z.of_nat (length elems)) w
     = Some (tt, with_log w (log ++ [RectFElement elems]))
     /\ forall painter : QPainter,
          paint (RectFElement elems) painter
          = painter ++ [Call_drawRects_QRectF elems])
  /\ (forall (mem : gmap Z QRect) (rects : Z) (elems : list QRect),
     holds mem rects elems ->
     drawRects_QRect mem rects (Z.of_nat (length elems)) w
     = Some (tt, with_log w (log ++ [RectElement elems]))
     /\ forall painter : QPainter,
          paint (RectElement elems) painter
          = painter ++ [Call_drawRects_QRect elems]).
Proof.
  intros Hw.
  repeat split; try reflexivity;
    try (by apply addElement_new_batch);
    try (by destruct mode).
  - unfold drawPolygon_QPointF, polyElement.
    rewrite (copy_elements_holds mem points elems) by done.
    by apply pdev_addElement_recording.
  - unfold drawPolygon_QPoint, polyElement.
    rewrite (copy_elements_holds mem points elems) by done.
    by apply pdev_addElement_recording.
Qed.

(** C10: a batch notification with element count zero still appends exactly
    one command, whose list of elements is empty (the array pointer is not
    read), and replaying that command issues one batch call with no
    element. *)
Theorem empty_batch_appends_one_command (w : World)
    (log : list PaintElement) :
  recording w log ->
  (forall (mem : gmap Z QLineF) (lines : Z),
     drawLines_QLineF mem lines 0 w
     = Some (tt, with_log w (log ++ [LineFElement []])))
  /\ (forall (mem : gmap Z QLine) (lines : Z),
     drawLines_QLine mem lines 0 w
     = Some (tt, with_log w (log ++ [LineElement []])))
  /\ (forall (mem : gmap Z QPointF) (points : Z),
     drawPoints_QPointF mem points 0 w
     = Some (tt, with_log w (log ++ [PointFElement []])))
  /\ (forall (mem : gmap Z QPoint) (points : Z),
     drawPoints_QPoint mem points 0 w
     = Some (tt, with_log w (log ++ [PointElement []])))
  /\ (forall (mem : gmap Z QPointF) (points : Z) (mode : PolygonDrawMode),
     drawPolygon_QPointF mem points 0 mode w
     = Some (tt, with_log w (log ++ [PolygonFElement mode []])))
  /\ (forall (mem : gmap Z QPoint) (points : Z) (mode : PolygonDrawMode),
     drawPolygon_QPoint mem points 0 mode w
     = Some (tt, with_log w (log ++ [PolygonElement mode []])))
  /\ (forall (mem : gmap Z QRectF) (rects : Z),
     drawRects_QRectF mem rects 0 w
     = Some (tt, with_log w (log ++ [RectFElement []])))
  /\ (forall (mem : gmap Z QRect) (rects : Z),
     drawRects_QRect mem rects 0 w
     = Some (tt, with_log w (log ++ [RectElement []])))
  /\ (forall painter : QPainter,
        paint (LineFElement []) painter
        = painter ++ [Call_drawLines_QLineF []]
        /\ paint (LineElement []) painter
           = painter ++ [Call_drawLines_QLine []]
        /\ paint (PointFElement []) painter
           = painter ++ [Call_drawPoints_QPolygonF []]
        /\ paint (PointElement []) painter
           = painter ++ [Call_drawPoints_QPolygon []]
        /\ paint (RectFElement []) painter
           = painter ++ [Call_drawRects_QRectF []]
        /\ paint (RectElement []) painter
           = painter ++ [Call_drawRects_QRect []]
        /\ (forall mode : PolygonDrawMode,
              paint (PolygonFElement mode []) painter
              = painter ++ [polygonF_call mode []]
              /\ paint (PolygonElement mode []) painter
                 = painter ++ [polygon_call mode []])).
Proof.
  intros Hw.
  repeat split; intros;
    try (by apply (pdev_addElement_recording _ w log Hw));
    try reflexivity; by destruct mode.
Qed.

(** C4: replaying a polygon command looks at the stored draw mode only:
    even-odd mode draws a polygon with the even-odd fill rule, winding mode
    a polygon with the winding fill rule, convex mode a convex polygon and
    polyline mode a polyline, each with the stored points, whatever these
    points are. *)
Theorem polygon_replay_dispatches_on_mode :
  (forall (pts : list QPoint) (painter : QPainter),
     paint (PolygonElement OddEvenMode pts) painter
     = painter ++ [Call_drawPolygon_QPolygon pts OddEvenFill]
     /\ paint (PolygonElement WindingMode pts) painter
        = painter ++ [Call_drawPolygon_QPolygon pts WindingFill]
     /\ paint (PolygonElement ConvexMode pts) painter
        = painter ++ [Call_drawConvexPolygon_QPolygon pts]
     /\ paint (PolygonElement PolylineMode pts) painter
        = painter ++ [Call_drawPolyline_QPolygon pts])
  /\ (forall (pts : list QPointF) (painter : QPainter),
     paint (PolygonFElement OddEvenMode pts) painter
     = painter ++ [Call_drawPolygon_QPolygonF pts OddEvenFill]
     /\ paint (PolygonFElement WindingMode pts) painter
        = painter ++ [Call_drawPolygon_QPolygonF pts WindingFill]
     /\ paint (PolygonFElement ConvexMode pts) painter
        = painter ++ [Call_drawConvexPolygon_QPolygonF pts]
     /\ paint (PolygonFElement PolylineMode pts) painter
        = painter ++ [Call_drawPolyline_QPolygonF pts]).
Proof. split; intros pts painter; repeat split. Qed.

(** C7: a text notification appends a command made of the position and of
    the string of the text item, nothing else of the item: two items with
    the same string are recorded alike.  Replaying the command draws that
    string at that position. *)
Theorem drawTextItem_stores_position_and_string (p : QPointF)
    (textItem : QTextItem) (w : World) (log : list PaintElement) :
  recording w log ->
  drawTextItem p textItem w
  = Some (tt, with_log w (log ++ [TextElement p (text textItem)]))
  /\ (forall painter : QPainter,
        paint (TextElement p (text textItem)) painter
        = painter ++ [Call_drawText p (text textItem)])
  /\ (forall other : QTextItem,
        text other = text textItem ->
        drawTextItem p other w = drawTextItem p textItem w).
Proof.
  intros Hw. split; [by apply pdev_addElement_recording|].
  split; [reflexivity|].
  intros other Htext. unfold drawTextItem, new_TextElement.
  by rewrite Htext.
Qed.

(** C8: replaying a command depends on the command and the painter alone:
    there is one call, fixed by the command, that every replay adds to the
    painter, so that replaying the command twice issues that same call
    twice. *)
Theorem paint_is_repeatable (el : PaintElement) :
  exists c : PainterCall,
    forall painter : QPainter,
      paint el painter = painter ++ [c]
      /\ paint el (paint el painter) = painter ++ [c; c].
Proof.
  destruct el as [| | | | | | | |m ?|m ?| | | | | | | | | | | | | | | |];
    try destruct m;
    eexists; intros painter; unfold paint, invoke;
    (split; [reflexivity|]); by rewrite <- app_assoc.
Qed.

End Properties.

(** ** The theorems at work on the sample world *)

(** C1 at the sample notification (flags transform and font): the two
    commands, font first. *)
Lemma updateState_one_command_per_dirty_flag_witness :
  recording sample_world []
  /\ updateState sample_state sample_world
     = Some (tt, with_log sample_world
                   [FontElement (font sample_state);
                    TransformElement (transform sample_state)])
  /\ length (dirty_commands sample_state) = 2%nat.
Proof.
  assert (Hw : recording sample_world []) by reflexivity.
  destruct (updateState_one_command_per_dirty_flag
              sample_state sample_world [] Hw) as (Hrun & Hlen & Hfont).
  split; [exact Hw|].
  rewrite Hrun, Hlen, (Hfont eq_refl). split; reflexivity.
Defined.

(** C9 at the sample notification with both clip flags: both commands carry
    the clip operation 2. *)
Lemma clip_commands_share_operation_witness :
  flag (state sample_clip_state) DirtyClipRegion = true
  /\ flag (state sample_clip_state) DirtyClipPath = true
  /\ updateState sample_clip_state sample_world
     = Some (tt, with_log sample_world
                   [ClipRegionElement (clipOperation sample_clip_state)
                      (clipRegion sample_clip_state);
                    ClipPathElement (clipOperation sample_clip_state)
                      (clipPath sample_clip_state)]).
Proof.
  assert (Hw : recording sample_world []) by reflexivity.
  assert (Hregion : flag (state sample_clip_state) DirtyClipRegion = true)
    by reflexivity.
  assert (Hpath : flag (state sample_clip_state) DirtyClipPath = true)
    by reflexivity.
  destruct (clip_commands_share_operation
              sample_clip_state sample_world [] Hw Hregion Hpath)
    as (Hrun & _ & _).
  split; [exact Hregion|]. split; [exact Hpath|].
  rewrite Hrun. reflexivity.
Defined.

(** C3 at the line array [(0,0)-(1,1), (2,2)-(3,3)]: the command holds the
    two segments and replays them. *)
Lemma batch_commands_snapshot_elements_witness :
  holds sample_memory 100 sample_lines
  /\ drawLines_QLine sample_memory 100 2 sample_world
     = Some (tt, with_log sample_world [LineElement sample_lines])
  /\ paint (LineElement sample_lines) []
     = [Call_drawLines_QLine sample_lines].
Proof.
  assert (Hw : recording sample_world []) by reflexivity.
  assert (Hmem : holds sample_memory 100 sample_lines).
  { intros [|[|i]] x Hx; simpl in Hx; inversion Hx; reflexivity. }
  destruct (batch_commands_snapshot_elements sample_world [] Hw)
    as (_ & Hlines & _).
  destruct (Hlines sample_memory 100 sample_lines Hmem) as [Hrun Hpaint].
  split; [exact Hmem|]. split; [exact Hrun | exact (Hpaint [])].
Defined.

(** C10 at an empty line batch with a null array pointer. *)
Lemma empty_batch_appends_one_command_witness :
  recording sample_world []
  /\ drawLines_QLine ∅ 0 0 sample_world
     = Some (tt, with_log sample_world [LineElement []]).
Proof.
  assert (Hw : recording sample_world []) by reflexivity.
  destruct (empty_batch_appends_one_command sample_world [] Hw)
    as (_ & Hlines & _).
  split; [exact Hw | exact (Hlines ∅ 0)].
Defined.

(** C7 at the text "plot" set in Helvetica, drawn at (3,4): the same
    text set in Times is recorded alike. *)
Lemma drawTextItem_stores_position_and_string_witness :
  recording sample_world []
  /\ drawTextItem (Qt := SampleQt) (3, 4) ("plot", "Helvetica")%string
       sample_world
     = Some (tt, with_log sample_world
                   [TextElement (Qt := SampleQt) (3, 4) "plot"%string])
  /\ drawTextItem (Qt := SampleQt) (3, 4) ("plot", "Times")%string
       sample_world
     = drawTextItem (Qt := SampleQt) (3, 4) ("plot", "Helvetica")%string
         sample_world.
Proof.
  assert (Hw : recording sample_world []) by reflexivity.
  destruct (drawTextItem_stores_position_and_string (Qt := SampleQt)
              (3, 4) ("plot", "Helvetica")%string sample_world [] Hw)
    as (Hrun & _ & Hsame).
  split; [exact Hw|]. split; [exact Hrun|].
  exact (Hsame ("plot", "Times")%string eq_refl).
Defined.

(** C5, the claim as stated fails: in the sample world, whose engine is
    bound to the device at address 1, [end] does not return the engine to
    the state of a fresh engine, with a null device pointer. *)
Lemma end_does_not_unbind :
  ~ (exists w' : World,
       end_ sample_world = Some (true, w')
       /\ engine w' = new_RecordPaintEngine
       /\ devices w' = devices sample_world).
Proof.
  intros (w' & Hend & Hidle & _).
  assert (Hw' : w' = sample_world) by (inversion Hend; reflexivity).
  rewrite Hw' in Hidle. discriminate Hidle.
Qed.

(** The array is overwritten between two line notifications: the first
    command keeps the segments it was given. *)
Example lines_survive_overwriting :
  (drawLines_QLine sample_memory 100 2 ;;
   drawLines_QLine overwritten_memory 100 2) sample_world
  = Some (tt, with_log sample_world
                [LineElement sample_lines; LineElement overwritten_lines]).
Proof. vm_compute. reflexivity. Qed.

(** ** Further properties of the engine and of the elements *)

Section Coverage.
Context {Qt : QtTypes}.

(** *** The copying loop of the batch constructors *)

Lemma copy_fold {T : Type} (mem : gmap Z T) (p : Z) (acc : list T)
    (l : list Z) :
  foldl (copy_step mem p) (Some acc) l
  = (fun v => acc ++ v) <$> mapM (fun i => mem !! (p + i)) l.
Proof.
  revert acc. induction l as [|i l IH]; intros acc; simpl.
  - by rewrite app_nil_r.
  - destruct (mem !! (p + i)) as [x|]; simpl.
    + rewrite IH. destruct (mapM _ l); simpl; [|done].
      by rewrite <- app_assoc.
    + clear IH. induction l as [|j l IH]; [done|]. simpl. exact IH.
Qed.

Lemma copy_elements_mapM {T : Type} (mem : gmap Z T) (p : Z) (count : Z) :
  copy_elements mem p count
  = mapM (fun i => mem !! (p + i)) (seqZ 0 count).
Proof.
  unfold copy_elements. rewrite copy_fold.
  by destruct (mapM _ _).
Qed.

(** X1: the loop yields a container exactly when every cell below the count
    is readable, and the container then has one entry per cell, equal to
    the cell, in the order of the array. *)
Theorem copy_elements_characterised {T : Type} (mem : gmap Z T) (p : Z)
    (count : Z) :
  (is_Some (copy_elements mem p count) <-> readable mem p count)
  /\ (forall v : list T,
        copy_elements mem p count = Some v <->
        length v = Z.to_nat count /\ holds mem p v).
Proof.
  rewrite copy_elements_mapM. split.
  - split.
    + intros Hsome i Hi. apply mapM_is_Some_1 in Hsome.
      rewrite Forall_forall in Hsome. apply (Hsome i).
      apply elem_of_seqZ. lia.
    + intros Hread. apply mapM_is_Some_2, Forall_forall.
      intros i Hi. apply elem_of_seqZ in Hi. apply Hread. lia.
  - intros v. rewrite mapM_Some. split.
    + intros Hall. split.
      * rewrite <- (Forall2_length _ _ _ Hall). apply length_seqZ.
      * intros i x Hx.
        destruct (Forall2_lookup_r _ _ _ _ _ Hall Hx) as (j & Hj & Hm).
        apply lookup_seqZ in Hj. destruct Hj as [-> _].
        by rewrite Z.add_0_l in Hm.
    + intros [Hlen Hmem]. apply Forall2_same_length_lookup. split.
      * by rewrite length_seqZ.
      * intros i j x Hj Hx. apply lookup_seqZ in Hj.
        destruct Hj as [-> _]. rewrite Z.add_0_l. by apply Hmem.
Qed.

(** *** Batch notifications at the bounds *)

Lemma pdev_addElement_defined (el : PaintElement) (w : World) :
  is_Some (pdev_addElement el w) <-> bound w.
Proof.
  unfold pdev_addElement, bound, recording.
  destruct (devices w !! _pdev (engine w)) as [[log|]|]; split.
  - intros _. by exists log.
  - intros _. by eexists.
  - by intros [? ?].
  - by intros [? ?].
  - by intros [? ?].
  - by intros [? ?].
Qed.

Lemma addElement_new_defined {T : Type} (mk : list T -> PaintElement)
    (mem : gmap Z T) (p : Z) (count : Z) (w : World) :
  is_Some (pdev_addElement_new (mk <$> copy_elements mem p count) w)
  <-> bound w /\ readable mem p count.
Proof.
  destruct (copy_elements_characterised mem p count) as [Hread _].
  rewrite <- Hread.
  destruct (copy_elements mem p count) as [v|]; simpl.
  - rewrite pdev_addElement_defined. split; [intros Hb; by split|by intros []].
  - split; [by intros [? ?]|]. intros [_ [? ?]]. discriminate.
Qed.

Lemma polyElement_fmap {T : Type} (mk : PolygonDrawMode -> list T -> PaintElement)
    (mem : gmap Z T) (p : Z) (count : Z) (mode : PolygonDrawMode) :
  (fun mp => mk (fst mp) (snd mp)) <$> polyElement mem p count mode
  = mk mode <$> copy_elements mem p count.
Proof. unfold polyElement. by destruct (copy_elements mem p count). Qed.

Lemma copy_elements_nonpositive {T : Type} (mem : gmap Z T) (p : Z)
    (count : Z) :
  count <= 0 -> copy_elements mem p count = Some [].
Proof. intros Hn. unfold copy_elements. by rewrite seqZ_nil. Qed.

(** X2: a batch notification has a defined result exactly when the engine's
    device pointer leads to a recording device and the caller owns every
    cell of the array below the count; for all eight batch methods. *)
Theorem batch_notification_defined (w : World) :
  (forall (mem : gmap Z QLineF) (lines lineCount : Z),
     is_Some (drawLines_QLineF mem lines lineCount w)
     <-> bound w /\ readable mem lines lineCount)
  /\ (forall (mem : gmap Z QLine) (lines lineCount : Z),
     is_Some (drawLines_QLine mem lines lineCount w)
     <-> bound w /\ readable mem lines lineCount)
  /\ (forall (mem : gmap Z QPointF) (points pointCount : Z),
     is_Some (drawPoints_QPointF mem points pointCount w)
     <-> bound w /\ readable mem points pointCount)
  /\ (forall (mem : gmap Z QPoint) (points pointCount : Z),
     is_Some (drawPoints_QPoint mem points pointCount w)
     <-> bound w /\ readable mem points pointCount)
  /\ (forall (mem : gmap Z QPointF) (points pointCount : Z)
        (mode : PolygonDrawMode),
     is_Some (drawPolygon_QPointF mem points pointCount mode w)
     <-> bound w /\ readable mem points pointCount)
  /\ (forall (mem : gmap Z QPoint) (points pointCount : Z)
        (mode : PolygonDrawMode),
     is_Some (drawPolygon_QPoint mem points pointCount mode w)
     <-> bound w /\ readable mem points pointCount)
  /\ (forall (mem : gmap Z QRectF) (rects rectCount : Z),
     is_Some (drawRects_QRectF mem rects rectCount w)
     <-> bound w /\ readable mem rects rectCount)
  /\ (forall (mem : gmap Z QRect) (rects rectCount : Z),
     is_Some (drawRects_QRect mem rects rectCount w)
     <-> bound w /\ readable mem rects rectCount).
Proof.
  repeat apply conj; intros;
    try (unfold drawPolygon_QPointF, drawPolygon_QPoint;
         rewrite polyElement_fmap);
    apply addElement_new_defined.
Qed.

(** X3: with a negative count a batch notification behaves as with count
    zero: the array is not read and one command with no element is
    appended. *)
Theorem negative_count_appends_empty_command (w : World)
    (log : list PaintElement) (count : Z) :
  recording w log ->
  count <= 0 ->
  (forall (mem : gmap Z QLineF) (lines : Z),
     drawLines_QLineF mem lines count w
     = Some (tt, with_log w (log ++ [LineFElement []])))
  /\ (forall (mem : gmap Z QLine) (lines : Z),
     drawLines_QLine mem lines count w
     = Some (tt, with_log w (log ++ [LineElement []])))
  /\ (forall (mem : gmap Z QPointF) (points : Z),
     drawPoints_QPointF mem points count w
     = Some (tt, with_log w (log ++ [PointFElement []])))
  /\ (forall (mem : gmap Z QPoint) (points : Z),
     drawPoints_QPoint mem points count w
     = Some (tt, with_log w (log ++ [PointElement []])))
  /\ (forall (mem : gmap Z QPointF) (points : Z) (mode : PolygonDrawMode),
     drawPolygon_QPointF mem points count mode w
     = Some (tt, with_log w (log ++ [PolygonFElement mode []])))
  /\ (forall (mem : gmap Z QPoint) (points : Z) (mode : PolygonDrawMode),
     drawPolygon_QPoint mem points count mode w
     = Some (tt, with_log w (log ++ [PolygonElement mode []])))
  /\ (forall (mem : gmap Z QRectF) (rects : Z),
     drawRects_QRectF mem rects count w
     = Some (tt, with_log w (log ++ [RectFElement []])))
  /\ (forall (mem : gmap Z QRect) (rects : Z),
     drawRects_QRect mem rects count w
     = Some (tt, with_log w (log ++ [RectElement []]))).
Proof.
  intros Hw Hn.
  repeat apply conj; intros;
    unfold drawLines_QLineF, drawLines_QLine, drawPoints_QPointF,
      drawPoints_QPoint, drawPolygon_QPointF, drawPolygon_QPoint,
      drawRects_QRectF, drawRects_QRect, lineElement, pointElement,
      polyElement, rectElement;
    rewrite copy_elements_nonpositive by done; simpl;
    by apply pdev_addElement_recording.
Qed.

(** *** The drawing notifications that copy their arguments *)

(** X4: while recording, each of the ellipse, image, path, pixmap and tiled
    pixmap notifications appends one command, and replaying that command
    calls the painter's method of the same name with the arguments of the
    notification in their places; the ellipse given by an integer rectangle
    is recorded, and replayed, as the ellipse of the converted rectangle. *)
Theorem plain_drawing_round_trip (w : World) (log : list PaintElement) :
  recording w log ->
  (forall (rect : QRectF),
     exists el : PaintElement,
       drawEllipse_QRectF rect w = Some (tt, with_log w (log ++ [el]))
       /\ forall painter : QPainter,
            paint el painter = painter ++ [Call_drawEllipse rect])
  /\ (forall (rect : QRect),
     drawEllipse_QRect rect w = drawEllipse_QRectF (QRectF_of_QRect rect) w)
  /\ (forall (rectangle : QRectF) (image : QImage) (sr : QRectF)
        (flags : ImageConversionFlags),
     exists el : PaintElement,
       drawImage rectangle image sr flags w
       = Some (tt, with_log w (log ++ [el]))
       /\ forall painter : QPainter,
            paint el painter
            = painter ++ [Call_drawImage rectangle image sr flags])
  /\ (forall (path : QPainterPath),
     exists el : PaintElement,
       drawPath path w = Some (tt, with_log w (log ++ [el]))
       /\ forall painter : QPainter,
            paint el painter = painter ++ [Call_drawPath path])
  /\ (forall (r : QRectF) (pm : QPixmap) (sr : QRectF),
     exists el : PaintElement,
       drawPixmap r pm sr w = Some (tt, with_log w (log ++ [el]))
       /\ forall painter : QPainter,
            paint el painter = painter ++ [Call_drawPixmap r pm sr])
  /\ (forall (rect : QRectF) (pixmap : QPixmap) (p : QPointF),
     exists el : PaintElement,
       drawTiledPixmap rect pixmap p w = Some (tt, with_log w (log ++ [el]))
       /\ forall painter : QPainter,
            paint el painter
            = painter ++ [Call_drawTiledPixmap rect pixmap p]).
Proof.
  intros Hw.
  repeat apply conj; intros; try reflexivity;
    (eexists; split;
     [by apply (pdev_addElement_recording _ w log Hw) | reflexivity]).
Qed.

(** *** State-change notifications at the edges *)

Lemma flag_recorded (f bit : Z) :
  Z.land recorded_flags bit = bit ->
  flag f bit = flag (Z.land f recorded_flags) bit.
Proof.
  intros Hbit. unfold flag.
  by rewrite <- Z.land_assoc, Hbit.
Qed.

Lemma flag_false (f bit : Z) : flag f bit = false <-> Z.land f bit = 0.
Proof.
  unfold flag. rewrite negb_false_iff. apply Z.eqb_eq.
Qed.

Lemma recorded_flags_unfold :
  recorded_flags
  = Z.lor DirtyBackground (Z.lor DirtyBackgroundMode (Z.lor DirtyBrush
      (Z.lor DirtyBrushOrigin (Z.lor DirtyClipRegion (Z.lor DirtyClipPath
        (Z.lor DirtyCompositionMode (Z.lor DirtyFont (Z.lor DirtyTransform
          (Z.lor DirtyClipEnabled (Z.lor DirtyPen
            (Z.lor DirtyHints 0))))))))))).
Proof. reflexivity. Qed.

Lemma no_recorded_flag (f : Z) :
  existsb (flag f) (List.map fst enumerated_order) = false
  <-> Z.land f recorded_flags = 0.
Proof.
  split.
  - simpl. intros H.
    repeat (apply orb_false_elim in H;
            let H1 := fresh "H" in destruct H as [H1 H];
            apply flag_false in H1).
    rewrite recorded_flags_unfold, !Z.land_lor_distr_r.
    rewrite H0, H1, H2, H3, H4, H5, H6, H7, H8, H9, H10, H11.
    by rewrite Z.land_0_r.
  - intros H. simpl.
    rewrite (flag_recorded f DirtyBackground), (flag_recorded f DirtyBackgroundMode),
      (flag_recorded f DirtyBrush), (flag_recorded f DirtyBrushOrigin),
      (flag_recorded f DirtyClipRegion), (flag_recorded f DirtyClipPath),
      (flag_recorded f DirtyCompositionMode), (flag_recorded f DirtyFont),
      (flag_recorded f DirtyTransform), (flag_recorded f DirtyClipEnabled),
      (flag_recorded f DirtyPen), (flag_recorded f DirtyHints)
      by reflexivity.
    rewrite H. reflexivity.
Qed.

Lemma pdev_addElement_unbound (el : PaintElement) (w : World) :
  ~ bound w -> pdev_addElement el w = None.
Proof.
  intros Hw. destruct (pdev_addElement el w) as [r|] eqn:E; [|done].
  exfalso. apply Hw, (pdev_addElement_defined el w). by rewrite E.
Qed.

Lemma when_unbound (c : bool) (el : PaintElement) (w : World) :
  ~ bound w ->
  when c (pdev_addElement el) w = if c then None else Some (tt, w).
Proof.
  intros Hw. destruct c; simpl; [by apply pdev_addElement_unbound|done].
Qed.

Lemma when_unbound_then (c : bool) (el : PaintElement) (k : M unit)
    (w : World) :
  ~ bound w ->
  (when c (pdev_addElement el) ;; k) w = if c then None else k w.
Proof.
  intros Hw. unfold mbind, M_bind. rewrite (when_unbound c el w Hw).
  by destruct c.
Qed.

(** What [updateState] does when the engine is not bound to a recording
    device. *)
Lemma updateState_unbound (st : QPaintEngineState) (w : World) :
  ~ bound w ->
  updateState st w
  = if existsb (flag (state st)) (List.map fst enumerated_order)
    then None else Some (tt, w).
Proof.
  intros Hw. unfold updateState. cbv zeta.
  do 11 rewrite (when_unbound_then _ _ _ w Hw).
  rewrite (when_unbound _ _ w Hw). simpl existsb.
  repeat match goal with
         | |- context [flag (state st) ?b] =>
             destruct (flag (state st) b); [reflexivity|]
         end.
  reflexivity.
Qed.

Lemma dirty_commands_nil (st : QPaintEngineState) :
  dirty_commands st = []
  <-> existsb (flag (state st)) (List.map fst enumerated_order) = false.
Proof.
  unfold dirty_commands, dirty_entries, enumerated_order. simpl.
  repeat match goal with
         | |- context [flag (state st) ?b] =>
             destruct (flag (state st) b); [by split|]
         end.
  by split.
Qed.

(** X5: a state-change notification in which none of the twelve flags the
    engine looks at is set (the opacity flag alone, for instance) records
    nothing and leaves the world as it is; the device pointer is not even
    followed, so this holds for an engine that is not bound too. *)
Theorem updateState_without_recorded_flag (st : QPaintEngineState)
    (w : World) :
  Z.land (state st) recorded_flags = 0 ->
  updateState st w = Some (tt, w) /\ dirty_commands st = [].
Proof.
  intros Hflags. apply no_recorded_flag in Hflags.
  assert (Hnil : dirty_commands st = []) by by apply dirty_commands_nil.
  split; [|exact Hnil].
  destruct (devices w !! _pdev (engine w)) as [[log|]|] eqn:Hdev.
  - rewrite (updateState_recording st w log Hdev), Hnil, app_nil_r.
    by rewrite with_log_same.
  - rewrite updateState_unbound, Hflags; [done|].
    intros [log Hlog]. unfold recording in Hlog. congruence.
  - rewrite updateState_unbound, Hflags; [done|].
    intros [log Hlog]. unfold recording in Hlog. congruence.
Qed.

(** X6: when the engine's device pointer does not lead to a recording
    device (a fresh engine, or one begun on a device of another class), a
    state-change notification with at least one of the twelve flags set has
    no defined result. *)
Theorem updateState_unbound_undefined (st : QPaintEngineState) (w : World) :
  ~ bound w ->
  Z.land (state st) recorded_flags <> 0 ->
  updateState st w = None.
Proof.
  intros Hw Hflags. rewrite (updateState_unbound st w Hw).
  destruct (existsb _ _) eqn:E; [done|].
  by apply no_recorded_flag in E.
Qed.

(** X7: what a state-change notification records depends on its flags only
    through the twelve flags the engine looks at: adding or removing other
    bits (the opacity flag) changes nothing. *)
Theorem updateState_ignores_other_flags (st : QPaintEngineState)
    (flags : Z) :
  Z.land flags recorded_flags = Z.land (state st) recorded_flags ->
  dirty_commands (with_flags st flags) = dirty_commands st
  /\ forall w : World, updateState (with_flags st flags) w = updateState st w.
Proof.
  intros Hflags.
  assert (Hbit : forall bit : Z,
             Z.land recorded_flags bit = bit ->
             flag flags bit = flag (state st) bit).
  { intros bit Hbit.
    by rewrite (flag_recorded flags bit Hbit),
      (flag_recorded (state st) bit Hbit), Hflags. }
  split.
  - unfold dirty_commands, dirty_entries, enumerated_order.
    rewrite !dirty_commands_cons. unfold with_flags.
    cbn [state backgroundBrush backgroundMode brush brushOrigin
         clipOperation clipRegion clipPath compositionMode font transform
         isClipEnabled pen renderHints List.map List.filter].
    by rewrite !Hbit by reflexivity.
  - intros w. unfold updateState, with_flags. cbv zeta.
    cbn [state backgroundBrush backgroundMode brush brushOrigin
         clipOperation clipRegion clipPath compositionMode font transform
         isClipEnabled pen renderHints].
    by rewrite !Hbit by reflexivity.
Qed.

(** *** Sequences of notifications *)

Lemma bound_dec (w : World) : bound w \/ ~ bound w.
Proof.
  unfold bound, recording.
  destruct (devices w !! _pdev (engine w)) as [[log|]|].
  - left. by exists log.
  - right. by intros [? ?].
  - right. by intros [? ?].
Qed.

Lemma addElement_new_recording (el : option PaintElement) (w : World)
    (log : list PaintElement) :
  recording w log ->
  pdev_addElement_new el w
  = match el with
    | Some e => Some (tt, with_log w (log ++ [e]))
    | None => None
    end.
Proof.
  intros Hw. destruct el as [e|]; simpl; [|done].
  by apply pdev_addElement_recording.
Qed.

(** What a notification records does not depend on the recording world it
    arrives in. *)
Lemma notify_recording (n : Notification) :
  exists r : option (list PaintElement),
    forall (w : World) (log : list PaintElement),
      recording w log ->
      notify n w
      = match r with
        | Some added => Some (tt, with_log w (log ++ added))
        | None => None
        end.
Proof.
  destruct n; cbn [notify];
    unfold drawEllipse_QRectF, drawEllipse_QRect, drawImage,
      drawLines_QLineF, drawLines_QLine, drawPath, drawPixmap,
      drawPoints_QPointF, drawPoints_QPoint, drawPolygon_QPointF,
      drawPolygon_QPoint, drawRects_QRectF, drawRects_QRect, drawTextItem,
      drawTiledPixmap;
    try (eexists (Some [_]); intros w log Hw;
         by apply pdev_addElement_recording);
    try (eexists (Some _); intros w log Hw;
         by apply updateState_recording);
    match goal with
    | |- context [pdev_addElement_new ?el] =>
        exists ((fun e => [e]) <$> el); intros w log Hw;
        rewrite (addElement_new_recording el w log Hw); by destruct el
    end.
Qed.

Lemma notify_unbound (n : Notification) (w w' : World) :
  ~ bound w -> notify n w = Some (tt, w') -> w' = w.
Proof.
  intros Hw.
  destruct n; cbn [notify];
    unfold drawEllipse_QRectF, drawEllipse_QRect, drawImage,
      drawLines_QLineF, drawLines_QLine, drawPath, drawPixmap,
      drawPoints_QPointF, drawPoints_QPoint, drawPolygon_QPointF,
      drawPolygon_QPoint, drawRects_QRectF, drawRects_QRect, drawTextItem,
      drawTiledPixmap;
    try (rewrite (pdev_addElement_unbound _ w Hw); discriminate);
    try (match goal with
         | |- context [pdev_addElement_new ?el] =>
             destruct el; simpl;
             [rewrite (pdev_addElement_unbound _ w Hw)|]; discriminate
         end).
  rewrite (updateState_unbound st w Hw). destruct (existsb _ _); [done|].
  by intros [= <-].
Qed.

Lemma notify_all_recording (ns : list Notification) :
  exists r : option (list PaintElement),
    forall (w : World) (log : list PaintElement),
      recording w log ->
      notify_all ns w
      = match r with
        | Some added => Some (tt, with_log w (log ++ added))
        | None => None
        end.
Proof.
  induction ns as [|n ns [rs IH]]; simpl.
  - exists (Some []). intros w log Hw.
    rewrite app_nil_r, with_log_same by done. reflexivity.
  - destruct (notify_recording n) as [[added|] Hn].
    + destruct rs as [rest|].
      * exists (Some (added ++ rest)). intros w log Hw.
        unfold mbind, M_bind. rewrite (Hn w log Hw).
        rewrite (IH _ _ (with_log_recording _ _)), with_log_with_log.
        by rewrite app_assoc.
      * exists None. intros w log Hw.
        unfold mbind, M_bind. rewrite (Hn w log Hw).
        by rewrite (IH _ _ (with_log_recording _ _)).
    + exists None. intros w log Hw.
      unfold mbind, M_bind. by rewrite (Hn w log Hw).
Qed.

Lemma notify_all_appends_block_aux (ns : list Notification) (w w' : World)
    (log : list PaintElement) :
  recording w log ->
  notify_all ns w = Some (tt, w') ->
  exists added : list PaintElement, w' = with_log w (log ++ added).
Proof.
  intros Hw Hrun. destruct (notify_all_recording ns) as [[added|] Hns].
  - exists added. rewrite (Hns w log Hw) in Hrun. congruence.
  - rewrite (Hns w log Hw) in Hrun. discriminate.
Qed.

(** X8: what a sequence of notifications records is appended, in one block,
    after what the device held, and that block is the same for every
    recording world the same sequence arrives in: it depends neither on the
    device nor on what was recorded before. *)
Theorem notify_all_appends_block (ns : list Notification) (w w' : World)
    (log : list PaintElement) :
  recording w log ->
  notify_all ns w = Some (tt, w') ->
  exists added : list PaintElement,
    w' = with_log w (log ++ added)
    /\ forall (w2 : World) (log2 : list PaintElement),
         recording w2 log2 ->
         notify_all ns w2 = Some (tt, with_log w2 (log2 ++ added)).
Proof.
  intros Hw Hrun. destruct (notify_all_recording ns) as [[added|] Hns].
  - exists added. rewrite (Hns w log Hw) in Hrun. split; [congruence|].
    intros w2 log2 Hw2. by apply Hns.
  - rewrite (Hns w log Hw) in Hrun. discriminate.
Qed.

Lemma notify_all_frame (ns : list Notification) (w w' : World) :
  notify_all ns w = Some (tt, w') ->
  engine w' = engine w
  /\ (forall a : Z,
        a <> _pdev (engine w) -> devices w' !! a = devices w !! a)
  /\ (forall log : list PaintElement,
        recording w log ->
        exists added : list PaintElement, recording w' (log ++ added)).
Proof.
  intros Hrun. destruct (bound_dec w) as [[log Hw]|Hw].
  - destruct (notify_all_appends_block_aux ns w w' log Hw Hrun)
      as (added & -> ).
    split; [reflexivity|]. split.
    + intros a Ha. unfold with_log; simpl. by rewrite lookup_insert_ne.
    + intros log' Hlog'. unfold recording in Hw, Hlog'.
      assert (log' = log) as -> by congruence.
      exists added. apply with_log_recording.
  - assert (w' = w) as ->.
    { revert Hrun. induction ns as [|n ns IH]; simpl.
      - by intros [= <-].
      - unfold mbind, M_bind. destruct (notify n w) as [[[] w1]|] eqn:E;
          [|discriminate].
        apply (notify_unbound n w w1 Hw) in E. subst w1. exact IH. }
    split; [reflexivity|]. split; [reflexivity|].
    intros log Hlog. exfalso. apply Hw. by exists log.
Qed.

(** X9: no sequence of notifications changes the engine's device pointer,
    touches a device other than the one the engine points to, or removes or
    alters an element already recorded: the elements the device held are
    still there, in front of the new ones. *)
Theorem notify_all_append_only (ns : list Notification) (w w' : World) :
  notify_all ns w = Some (tt, w') ->
  engine w' = engine w
  /\ (forall a : Z,
        a <> _pdev (engine w) -> devices w' !! a = devices w !! a)
  /\ (forall log : list PaintElement,
        recording w log ->
        exists added : list PaintElement, recording w' (log ++ added)).
Proof. apply notify_all_frame. Qed.

(** X10: a drawing notification that reaches an engine whose device pointer
    does not lead to a recording device (a fresh engine before [begin], an
    engine begun on a device of another class) has no defined result. *)
Theorem drawing_unbound_undefined (n : Notification) (w : World) :
  ~ bound w ->
  (forall st : QPaintEngineState, n <> Notify_updateState st) ->
  notify n w = None.
Proof.
  intros Hw Hn.
  destruct n; cbn [notify];
    unfold drawEllipse_QRectF, drawEllipse_QRect, drawImage,
      drawLines_QLineF, drawLines_QLine, drawPath, drawPixmap,
      drawPoints_QPointF, drawPoints_QPoint, drawPolygon_QPointF,
      drawPolygon_QPoint, drawRects_QRectF, drawRects_QRect, drawTextItem,
      drawTiledPixmap;
    try (by apply pdev_addElement_unbound);
    try (match goal with
         | |- pdev_addElement_new ?el w = None =>
             destruct el; simpl; [by apply pdev_addElement_unbound|done]
         end).
  by destruct (Hn st).
Qed.


(** *** Replay *)

Lemma paint_appends (el : PaintElement) (painter : QPainter) :
  paint el painter = painter ++ paint el [] /\ length (paint el []) = 1%nat.
Proof.
  destruct el as [| | | | | | | |m ?|m ?| | | | | | | | | | | | | | | |];
    try destruct m; by split.
Qed.

Lemma paint_all_flat_map (els : list PaintElement) (painter : QPainter) :
  paint_all els painter = painter ++ flat_map (fun el => paint el []) els.
Proof.
  unfold paint_all. revert painter.
  induction els as [|el els IH]; intros painter; simpl.
  - by rewrite app_nil_r.
  - rewrite IH, (proj1 (paint_appends el painter)). by rewrite <- app_assoc.
Qed.

(** X12: painting a list of elements adds one call per element to the
    painter, in the order of the list, after the calls the painter had
    received; the calls added do not depend on those earlier calls, so
    painting the list twice adds the same calls twice. *)
Theorem paint_all_one_call_per_element (els : list PaintElement)
    (painter : QPainter) :
  paint_all els painter = painter ++ paint_all els []
  /\ length (paint_all els []) = length els
  /\ (forall (i : nat) (el : PaintElement),
        els !! i = Some el -> [paint_all els [] !! i] = Some <$> paint el [])
  /\ paint_all els (paint_all els painter)
     = painter ++ paint_all els [] ++ paint_all els [].
Proof.
  rewrite !paint_all_flat_map. simpl. repeat apply conj.
  - reflexivity.
  - induction els as [|el els IH]; simpl; [done|].
    rewrite length_app, IH, (proj2 (paint_appends el [])). reflexivity.
  - induction els as [|el els IH]; intros i x Hx; [done|].
    simpl. pose proof (proj2 (paint_appends el [])) as Hone.
    destruct (paint el []) as [|c [|]] eqn:Hc; try discriminate Hone.
    destruct i as [|i]; simpl in *.
    + injection Hx as <-. by rewrite Hc.
    + by apply IH.
  - by rewrite <- app_assoc.
Qed.

(** X13: two elements that replay as the same call are the same element:
    the call issued on replay determines the class of the element and
    everything it stores. *)
Theorem paint_injective (el1 el2 : PaintElement) (painter : QPainter) :
  paint el1 painter = paint el2 painter -> el1 = el2.
Proof.
  rewrite (proj1 (paint_appends el1 painter)),
    (proj1 (paint_appends el2 painter)).
  intros H. apply app_inv_head in H. revert H.
  destruct el1 as [| | | | | | | |m ?|m ?| | | | | | | | | | | | | | | |];
    try destruct m;
    destruct el2 as [| | | | | | | |m2 ?|m2 ?| | | | | | | | | | | | | | | |];
    try destruct m2;
    simpl; intros [=]; by subst.
Qed.

Lemma paint_all_app (a b : list PaintElement) :
  paint_all (a ++ b) [] = paint_all a [] ++ paint_all b [].
Proof. rewrite !paint_all_flat_map. simpl. apply flat_map_app. Qed.

Lemma paint_all_when (c : bool) (el : PaintElement) :
  paint_all (if c then [el] else []) [] = if c then paint el [] else [].
Proof. by destruct c. Qed.

Lemma in_when (c : bool) (x y : PainterCall) :
  In y (if c then [x] else []) <-> c = true /\ x = y.
Proof.
  destruct c; simpl; [|by intuition].
  split; [intros [H|[]]; by split|intros [_ H]; by left].
Qed.

(** The calls replayed for what a state-change notification records. *)
Lemma dirty_commands_replayed (st : QPaintEngineState) :
  paint_all (dirty_commands st) []
  = (if flag (state st) DirtyBackground
     then [Call_setBackground (backgroundBrush st)] else [])
    ++ (if flag (state st) DirtyBackgroundMode
        then [Call_setBackgroundMode (backgroundMode st)] else [])
    ++ (if flag (state st) DirtyBrush
        then [Call_setBrush (brush st)] else [])
    ++ (if flag (state st) DirtyBrushOrigin
        then [Call_setBrushOrigin (brushOrigin st)] else [])
    ++ (if flag (state st) DirtyClipRegion
        then [Call_setClipRegion (clipRegion st) (clipOperation st)] else [])
    ++ (if flag (state st) DirtyClipPath
        then [Call_setClipPath (clipPath st) (clipOperation st)] else [])
    ++ (if flag (state st) DirtyCompositionMode
        then [Call_setCompositionMode (compositionMode st)] else [])
    ++ (if flag (state st) DirtyFont
        then [Call_setFont (font st)] else [])
    ++ (if flag (state st) DirtyTransform
        then [Call_setWorldTransform (transform st)] else [])
    ++ (if flag (state st) DirtyClipEnabled
        then [Call_setClipping (isClipEnabled st)] else [])
    ++ (if flag (state st) DirtyPen
        then [Call_setPen (pen st)] else [])
    ++ (if flag (state st) DirtyHints
        then [Call_setRenderHints (renderHints st)] else []).
Proof.
  unfold dirty_commands, dirty_entries, enumerated_order.
  rewrite !dirty_commands_cons. simpl List.map.
  rewrite !paint_all_app, !paint_all_when. simpl paint_all.
  by rewrite app_nil_r.
Qed.

Lemma dirty_commands_state_elements (st : QPaintEngineState)
    (el : PaintElement) :
  In el (dirty_commands st) -> is_state_element el = true.
Proof.
  unfold dirty_commands, dirty_entries, enumerated_order.
  rewrite !dirty_commands_cons. simpl List.map. rewrite !in_app_iff.
  intros H.
  repeat destruct H as [H|H];
    try (by destruct H);
    match type of H with
    | In _ (if ?c then _ else _) =>
        destruct c; simpl in H; [by destruct H as [<-|[]]|by destruct H]
    end.
Qed.

(** X14: replaying what a state-change notification recorded calls a
    painter setter exactly for the attributes whose flag was set, with the
    value the attribute had at the notification: the world transform for
    the transform flag, the clip region and the clip path each with the
    notification's clip operation, and so on for the twelve attributes; no
    drawing call is replayed. *)
Theorem state_replay_sets_dirty_attributes (st : QPaintEngineState) :
  (forall b : QBrush,
     In (Call_setBackground b) (paint_all (dirty_commands st) [])
     <-> flag (state st) DirtyBackground = true /\ b = backgroundBrush st)
  /\ (forall m : BGMode,
     In (Call_setBackgroundMode m) (paint_all (dirty_commands st) [])
     <-> flag (state st) DirtyBackgroundMode = true /\ m = backgroundMode st)
  /\ (forall b : QBrush,
     In (Call_setBrush b) (paint_all (dirty_commands st) [])
     <-> flag (state st) DirtyBrush = true /\ b = brush st)
  /\ (forall o : QPointF,
     In (Call_setBrushOrigin o) (paint_all (dirty_commands st) [])
     <-> flag (state st) DirtyBrushOrigin = true /\ o = brushOrigin st)
  /\ (forall (r : QRegion) (op : ClipOperation),
     In (Call_setClipRegion r op) (paint_all (dirty_commands st) [])
     <-> flag (state st) DirtyClipRegion = true
         /\ r = clipRegion st /\ op = clipOperation st)
  /\ (forall (p : QPainterPath) (op : ClipOperation),
     In (Call_setClipPath p op) (paint_all (dirty_commands st) [])
     <-> flag (state st) DirtyClipPath = true
         /\ p = clipPath st /\ op = clipOperation st)
  /\ (forall m : CompositionMode,
     In (Call_setCompositionMode m) (paint_all (dirty_commands st) [])
     <-> flag (state st) DirtyCompositionMode = true
         /\ m = compositionMode st)
  /\ (forall f : QFont,
     In (Call_setFont f) (paint_all (dirty_commands st) [])
     <-> flag (state st) DirtyFont = true /\ f = font st)
  /\ (forall t : QTransform,
     In (Call_setWorldTransform t) (paint_all (dirty_commands st) [])
     <-> flag (state st) DirtyTransform = true /\ t = transform st)
  /\ (forall e : bool,
     In (Call_setClipping e) (paint_all (dirty_commands st) [])
     <-> flag (state st) DirtyClipEnabled = true /\ e = isClipEnabled st)
  /\ (forall p : QPen,
     In (Call_setPen p) (paint_all (dirty_commands st) [])
     <-> flag (state st) DirtyPen = true /\ p = pen st)
  /\ (forall h : RenderHints,
     In (Call_setRenderHints h) (paint_all (dirty_commands st) [])
     <-> flag (state st) DirtyHints = true /\ h = renderHints st)
  /\ (forall c : PainterCall,
     In c (paint_all (dirty_commands st) []) ->
     exists el : PaintElement,
       In el (dirty_commands st) /\ paint el [] = [c]
       /\ is_state_element el = true).
Proof.
  rewrite dirty_commands_replayed.
  repeat apply conj; intros;
    try (rewrite !in_app_iff, !in_when;
         intuition (try discriminate; try congruence)).
  rewrite <- dirty_commands_replayed in H.
  rewrite paint_all_flat_map in H. simpl in H.
  apply in_flat_map in H. destruct H as (el & Hel & Hc).
  exists el. split; [exact Hel|]. split.
  - pose proof (proj2 (paint_appends el [])) as Hone.
    destruct (paint el []) as [|c' [|]]; try discriminate Hone.
    by destruct Hc as [->|[]].
  - by apply (dirty_commands_state_elements st).
Qed.

End Coverage.

(** ** The further properties at work on the sample worlds *)

Lemma idle_world_unbound : ~ bound idle_world.
Proof.
  intros [log Hlog]. unfold recording in Hlog. vm_compute in Hlog.
  discriminate Hlog.
Defined.

(** X3 at a line batch of count -3 with a null pointer. *)
Lemma negative_count_appends_empty_command_witness :
  recording sample_world []
  /\ -3 <= 0
  /\ drawLines_QLine ∅ 0 (-3) sample_world
     = Some (tt, with_log sample_world [LineElement []]).
Proof.
  assert (Hw : recording sample_world []) by reflexivity.
  assert (Hn : -3 <= 0) by lia.
  destruct (negative_count_appends_empty_command sample_world [] (-3) Hw Hn)
    as (_ & Hlines & _).
  split; [exact Hw|]. split; [exact Hn | exact (Hlines ∅ 0)].
Defined.

(** X4 at an image drawn into the sample rectangle. *)
Lemma plain_drawing_round_trip_witness :
  recording sample_world []
  /\ exists el : PaintElement,
       drawImage sample_rect sample_image sample_rect 0 sample_world
       = Some (tt, with_log sample_world ([] ++ [el]))
       /\ forall painter : QPainter,
            paint el painter
            = painter
              ++ [Call_drawImage sample_rect sample_image sample_rect 0].
Proof.
  assert (Hw : recording sample_world []) by reflexivity.
  destruct (plain_drawing_round_trip sample_world [] Hw)
    as (_ & _ & Himage & _).
  split; [exact Hw|].
  exact (Himage sample_rect sample_image sample_rect 0).
Defined.

(** X5 at the opacity notification, on an engine that has not begun. *)
Lemma updateState_without_recorded_flag_witness :
  Z.land (state opacity_state) (@recorded_flags SampleQt) = 0
  /\ updateState opacity_state idle_world = Some (tt, idle_world)
  /\ dirty_commands opacity_state = [].
Proof.
  assert (Hflags : Z.land (state opacity_state) (@recorded_flags SampleQt) = 0)
    by reflexivity.
  split; [exact Hflags|].
  exact (updateState_without_recorded_flag opacity_state idle_world Hflags).
Defined.

(** X6 at the sample notification, on an engine that has not begun. *)
Lemma updateState_unbound_undefined_witness :
  ~ bound idle_world
  /\ Z.land (state sample_state) (@recorded_flags SampleQt) <> 0
  /\ updateState sample_state idle_world = None.
Proof.
  assert (Hflags : Z.land (state sample_state) (@recorded_flags SampleQt) <> 0)
    by (intros H; discriminate H).
  split; [exact idle_world_unbound|]. split; [exact Hflags|].
  exact (updateState_unbound_undefined sample_state idle_world
           idle_world_unbound Hflags).
Defined.

(** X7 at the sample notification with the opacity flag added. *)
Lemma updateState_ignores_other_flags_witness :
  Z.land (Z.lor (state sample_state) DirtyOpacity) (@recorded_flags SampleQt)
  = Z.land (state sample_state) (@recorded_flags SampleQt)
  /\ dirty_commands
       (with_flags sample_state (Z.lor (state sample_state) DirtyOpacity))
     = dirty_commands sample_state.
Proof.
  assert (Hflags :
            Z.land (Z.lor (state sample_state) DirtyOpacity) (@recorded_flags SampleQt)
            = Z.land (state sample_state) (@recorded_flags SampleQt))
    by reflexivity.
  split; [exact Hflags|].
  exact (proj1 (updateState_ignores_other_flags sample_state _ Hflags)).
Defined.

Lemma sample_session_runs :
  notify_all sample_session sample_world
  = Some (tt, with_log sample_world sample_session_elements).
Proof. vm_compute. reflexivity. Defined.

(** X8 at the sample session. *)
Lemma notify_all_appends_block_witness :
  recording sample_world []
  /\ notify_all sample_session sample_world
     = Some (tt, with_log sample_world sample_session_elements)
  /\ exists added : list PaintElement,
       with_log sample_world sample_session_elements
       = with_log sample_world ([] ++ added)
       /\ forall (w2 : World) (log2 : list PaintElement),
            recording w2 log2 ->
            notify_all sample_session w2
            = Some (tt, with_log w2 (log2 ++ added)).
Proof.
  assert (Hw : recording sample_world []) by reflexivity.
  split; [exact Hw|]. split; [exact sample_session_runs|].
  exact (notify_all_appends_block sample_session sample_world _ [] Hw
           sample_session_runs).
Defined.

(** X9 at the sample session. *)
Lemma notify_all_append_only_witness :
  notify_all sample_session sample_world
  = Some (tt, with_log sample_world sample_session_elements)
  /\ engine (with_log sample_world sample_session_elements)
     = engine sample_world
  /\ devices (with_log sample_world sample_session_elements) !! 2
     = devices sample_world !! 2.
Proof.
  destruct (notify_all_append_only sample_session sample_world _
              sample_session_runs) as (Heng & Hother & _).
  split; [exact sample_session_runs|]. split; [exact Heng|].
  apply Hother. discriminate.
Defined.

(** X10 at a path drawn on an engine that has not begun. *)
Lemma drawing_unbound_undefined_witness :
  ~ bound idle_world
  /\ notify (Notify_drawPath sample_path) idle_world = None.
Proof.
  split; [exact idle_world_unbound|].
  apply (drawing_unbound_undefined (Notify_drawPath sample_path) idle_world
           idle_world_unbound).
  intros st H. discriminate H.
Defined.



(** X13 at two text elements with the same position and string. *)
Lemma paint_injective_witness :
  paint (TextElement (Qt := SampleQt) (3, 4) "plot"%string) []
  = paint (TextElement (Qt := SampleQt) (3, 4) "plot"%string) []
  /\ TextElement (Qt := SampleQt) (3, 4) "plot"%string
     = TextElement (Qt := SampleQt) (3, 4) "plot"%string.
Proof.
  split; [reflexivity|].
  exact (paint_injective (TextElement (Qt := SampleQt) (3, 4) "plot"%string)
           (TextElement (Qt := SampleQt) (3, 4) "plot"%string) [] eq_refl).
Defined.
